(** * Rock-Paper-Scissors-Plus referee: the tools of [rps_plus_referee.py]

    A shallow embedding of the game tools of [src/Game/rps_plus_referee.py]
    and the properties of the round engine.

    Modelling choices.
    - A Python [str] is a [string]; a character is read as the code point
      of the same number (0..255), so the model covers the inputs whose
      code points are below 256.  [str.strip()] and [str.lower()] are
      written out for that range.
    - A Python [int] is a [Z].
    - The module-level [_game_state] is the state of ExtLib's state monad:
      a tool that reads or assigns a field of [_game_state] is a
      computation in [state GameState].
    - The dicts that the tools return have a fixed set of keys and are
      records with one field per key. *)

From Stdlib Require Import String Ascii List Bool ZArith NArith Lia.
From Stdlib Require Import DecimalString.
From ExtLib Require Import Structures.Monad Structures.MonadState.
From ExtLib Require Import Data.Monads.StateMonad.
Import ListNotations.
Import MonadNotation.
Local Open Scope monad_scope.
Local Open Scope string_scope.
Local Open Scope Z_scope.

(** ** Python string operations used by the validator *)

Module PyStr.

(** Code points below 256 for which [str.isspace()] holds: TAB..CR,
    FS..US, SPACE, NEL and NBSP. *)
Definition is_space (c : ascii) : bool :=
  let n := N_of_ascii c in
  (((9 <=? n) && (n <=? 13)) || ((28 <=? n) && (n <=? 32))
   || (n =? 133) || (n =? 160))%N.

(** Code points below 256 that [str.lower()] changes: A..Z and the
    Latin-1 capitals U+00C0..U+00DE without the multiplication sign. *)
Definition is_upper (c : ascii) : bool :=
  let n := N_of_ascii c in
  (((65 <=? n) && (n <=? 90)) || ((192 <=? n) && (n <=? 214))
   || ((216 <=? n) && (n <=? 222)))%N.

Definition to_lower (c : ascii) : ascii :=
  if is_upper c then ascii_of_N (N_of_ascii c + 32) else c.

Fixpoint lower (s : string) : string :=
  match s with
  | EmptyString => EmptyString
  | String c s' => String (to_lower c) (lower s')
  end.

Fixpoint lstrip (s : string) : string :=
  match s with
  | EmptyString => EmptyString
  | String c s' => if is_space c then lstrip s' else s
  end.

Fixpoint rstrip (s : string) : string :=
  match s with
  | EmptyString => EmptyString
  | String c s' =>
      match rstrip s' with
      | EmptyString => if is_space c then EmptyString else String c EmptyString
      | r => String c r
      end
  end.

(** [s.strip()]: leading and trailing whitespace removed. *)
Definition strip (s : string) : string := rstrip (lstrip s).

(** Every character of [s] is whitespace. *)
Fixpoint all_space (s : string) : bool :=
  match s with
  | EmptyString => true
  | String c s' => is_space c && all_space s'
  end.

(** [x in l] for a list of strings. *)
Definition str_in (x : string) (l : list string) : bool :=
  existsb (String.eqb x) l.

End PyStr.

(** ** Data model *)

(** [@dataclass class GameState], with its defaults in [fresh_state]. *)
Record GameState : Type := mkGameState {
  round_number : Z;
  user_score : Z;
  bot_score : Z;
  user_bomb_used : bool;
  bot_bomb_used : bool;
  game_over : bool
}.

(** [GameState()] *)
Definition fresh_state : GameState :=
  mkGameState 0 0 0 false false false.

Definition set_round_number (v : Z) (g : GameState) : GameState :=
  mkGameState v (user_score g) (bot_score g)
    (user_bomb_used g) (bot_bomb_used g) (game_over g).

Definition set_user_score (v : Z) (g : GameState) : GameState :=
  mkGameState (round_number g) v (bot_score g)
    (user_bomb_used g) (bot_bomb_used g) (game_over g).

Definition set_bot_score (v : Z) (g : GameState) : GameState :=
  mkGameState (round_number g) (user_score g) v
    (user_bomb_used g) (bot_bomb_used g) (game_over g).

Definition set_user_bomb_used (v : bool) (g : GameState) : GameState :=
  mkGameState (round_number g) (user_score g) (bot_score g)
    v (bot_bomb_used g) (game_over g).

Definition set_bot_bomb_used (v : bool) (g : GameState) : GameState :=
  mkGameState (round_number g) (user_score g) (bot_score g)
    (user_bomb_used g) v (game_over g).

Definition set_game_over (v : bool) (g : GameState) : GameState :=
  mkGameState (round_number g) (user_score g) (bot_score g)
    (user_bomb_used g) (bot_bomb_used g) v.

(** The dict returned by [validate_and_normalize_input]. *)
Record Validation : Type := mkValidation {
  normalized_move : string;
  status : string
}.

(** The dict returned by [resolve_round_outcome]. *)
Record Outcome : Type := mkOutcome {
  result : string;
  winner : string;
  message : string;
  user_score_delta : Z;
  bot_score_delta : Z
}.

(** ** The tools *)

(** A tool runs against the global [_game_state]. *)
Definition Tool : Type -> Type := state GameState.

(** [if c: body] for a statement [body]. *)
Definition when (c : bool) (body : Tool unit) : Tool unit :=
  if c then body else ret tt.

Definition valid_moves : list string := ["rock"; "paper"; "scissors"; "bomb"].

Definition validate_and_normalize_input (user_input : string) : Tool Validation :=
  let normalized := PyStr.lower (PyStr.strip user_input) in
  if negb (PyStr.str_in normalized valid_moves) then
    ret (mkValidation "invalid"
           "Invalid move. Must be one of: rock, paper, scissors, bomb.")
  else
    g <- get ;;
    if (normalized =? "bomb")%string && user_bomb_used g then
      ret (mkValidation "invalid" "Bomb already used. Cannot use bomb again.")
    else
      ret (mkValidation normalized "valid").

(** The dict [win_conditions], keyed by (user move, bot move). *)
Definition win_conditions : list ((string * string) * string) :=
  [ (("rock", "scissors"), "User wins this round.");
    (("scissors", "paper"), "User wins this round.");
    (("paper", "rock"), "User wins this round.") ].

Definition pair_eqb (p q : string * string) : bool :=
  (fst p =? fst q)%string && (snd p =? snd q)%string.

(** [d.get(k)]: the value of the first entry with key [k]. *)
Fixpoint dict_get (k : string * string)
    (d : list ((string * string) * string)) : option string :=
  match d with
  | [] => None
  | (k', v) :: d' => if pair_eqb k k' then Some v else dict_get k d'
  end.

Definition resolve_round_outcome (user_move bot_move : string) : Outcome :=
  if (user_move =? "invalid")%string then
    mkOutcome "invalid" "bot" "Invalid input. Round forfeited." 0 0
  else if (user_move =? bot_move)%string then
    mkOutcome "draw" "none" "Draw." 0 0
  else if (user_move =? "bomb")%string then
    mkOutcome "win" "user" "User wins this round (bomb beats all)." 1 0
  else if (bot_move =? "bomb")%string then
    mkOutcome "win" "bot" "Bot wins this round (bomb beats all)." 0 1
  else
    match dict_get (user_move, bot_move) win_conditions with
    | Some msg => mkOutcome "win" "user" msg 1 0
    | None => mkOutcome "win" "bot" "Bot wins this round." 0 1
    end.

(** [get_current_state]: the six fields of [_game_state], read only.  The
    returned dict has the keys of the dataclass and is a [GameState] value. *)
Definition get_current_state : Tool GameState := get.

Definition update_game_state (user_move bot_move : string)
    (outcome : Outcome) : Tool GameState :=
  modify (fun g => set_round_number (round_number g + 1) g) ;;
  modify (fun g => set_user_score (user_score g + user_score_delta outcome) g) ;;
  modify (fun g => set_bot_score (bot_score g + bot_score_delta outcome) g) ;;
  when (user_move =? "bomb")%string (modify (set_user_bomb_used true) ;; ret tt) ;;
  when (bot_move =? "bomb")%string (modify (set_bot_bomb_used true) ;; ret tt) ;;
  g <- get ;;
  when (3 <=? round_number g) (modify (set_game_over true) ;; ret tt) ;;
  get.

(** The resolve and update steps of [Agent.run] for the moves of one round:
    the outcome and the updated state dict. *)
Definition play_round (user_move bot_move : string)
    : Tool (Outcome * GameState) :=
  let outcome := resolve_round_outcome user_move bot_move in
  updated_state <- update_game_state user_move bot_move outcome ;;
  ret (outcome, updated_state).

(** Calls of [update_game_state] one after the other, each with its moves
    and its outcome dict. *)
Fixpoint update_rounds (calls : list (string * string * Outcome)) : Tool unit :=
  match calls with
  | [] => ret tt
  | (user_move, bot_move, outcome) :: rest =>
      update_game_state user_move bot_move outcome ;;
      update_rounds rest
  end.

(** ** Vocabulary of the properties *)

(** The canonical moves other than bomb. *)
Definition non_bomb_moves : list string := ["rock"; "paper"; "scissors"].

(** The relation of the game: rock beats scissors, scissors beats paper,
    paper beats rock. *)
Inductive beats : string -> string -> Prop :=
| rock_beats_scissors : beats "rock" "scissors"
| scissors_beats_paper : beats "scissors" "paper"
| paper_beats_rock : beats "paper" "rock".

(** The score deltas of an outcome, as (user, bot). *)
Definition deltas (o : Outcome) : Z * Z :=
  (user_score_delta o, bot_score_delta o).

Definition user_wins (o : Outcome) : Prop :=
  winner o = "user" /\ deltas o = (1, 0).

Definition bot_wins (o : Outcome) : Prop :=
  winner o = "bot" /\ deltas o = (0, 1).

(** The keys of [win_conditions]. *)
Definition user_winning_pairs : list (string * string) :=
  map fst win_conditions.

(** First and last character tests, for the result of [strip]. *)
Definition starts_with_space (s : string) : bool :=
  match s with
  | EmptyString => false
  | String c _ => PyStr.is_space c
  end.

Fixpoint ends_with_space (s : string) : bool :=
  match s with
  | EmptyString => false
  | String c EmptyString => PyStr.is_space c
  | String _ s' => ends_with_space s'
  end.

(** The state that [update_game_state] leaves behind, in closed form. *)
Definition round_applied (user_move bot_move : string) (outcome : Outcome)
    (g : GameState) : GameState :=
  mkGameState (round_number g + 1)
    (user_score g + user_score_delta outcome)
    (bot_score g + bot_score_delta outcome)
    (user_bomb_used g || (user_move =? "bomb")%string)
    (bot_bomb_used g || (bot_move =? "bomb")%string)
    (game_over g || (3 <=? round_number g + 1)).

(** Three calls with a loss, an out-of-vocabulary move against a bomb, and
    a forfeit. *)
Definition sample_calls : list (string * string * Outcome) :=
  [ ("rock", "paper", resolve_round_outcome "rock" "paper");
    ("lizard", "bomb", resolve_round_outcome "lizard" "bomb");
    ("invalid", "rock", resolve_round_outcome "invalid" "rock") ].

(** The end-to-end scenario: user rock, paper, bomb against bot scissors,
    rock, rock; the outcome and the state dict of each round. *)
Definition scenario : Tool (list (Outcome * GameState)) :=
  r1 <- play_round "rock" "scissors" ;;
  r2 <- play_round "paper" "rock" ;;
  r3 <- play_round "bomb" "rock" ;;
  ret [r1; r2; r3].

(** The state at the end of the scenario. *)
Definition terminal_state : GameState := execState scenario fresh_state.

(** ** The bot, the fallback agent and the game loop *)

(** [random.choice(moves)]: the element at an index below [len(moves)].  The
    random source is the number [draw]; the index is its residue. *)
Definition random_choice (draw : nat) (moves : list string) : string :=
  nth (draw mod length moves)%nat moves "".

Definition get_bot_move (draw : nat) : Tool string :=
  g <- get ;;
  let moves := ["rock"; "paper"; "scissors"] in
  let moves := if negb (bot_bomb_used g) then (moves ++ ["bomb"])%list else moves in
  ret (random_choice draw moves).

(** [str(n)] of an int, as an f-string field prints it. *)
Definition str_of_int (n : Z) : string :=
  NilZero.string_of_int (Z.to_int n).

Definition newline : string := String "010"%char EmptyString.

(** ["\n".join(lines)] *)
Fixpoint join_lines (lines : list string) : string :=
  match lines with
  | [] => ""
  | [l] => l
  | l :: rest => l ++ newline ++ join_lines rest
  end.

(** The fallback [Agent] of the module, the one in use when the ADK package
    is not installed, holding the tools of [create_game_tools]: each
    [self.tools[name].func] is the tool of that name. *)
Module Agent.

Definition _format_round_response (round_num : Z) (user_move bot_move : string)
    (outcome : Outcome) (st : GameState) : string :=
  join_lines
    [ "Round " ++ str_of_int round_num ++ ":";
      "User move: " ++ user_move;
      "Bot move: " ++ bot_move;
      message outcome;
      "Current score - User: " ++ str_of_int (user_score st)
        ++ ", Bot: " ++ str_of_int (bot_score st) ].

Definition run (user_input : string) (draw : nat) : Tool string :=
  validation_result <- validate_and_normalize_input user_input ;;
  let user_move := normalized_move validation_result in
  bot_move <- get_bot_move draw ;;
  let outcome := resolve_round_outcome user_move bot_move in
  updated_state <- update_game_state user_move bot_move outcome ;;
  ret (_format_round_response (round_number updated_state)
         user_move bot_move outcome updated_state).

End Agent.

Definition format_final_result (st : GameState) : string :=
  if user_score st >? bot_score st then
    "Game over. User wins! Final score: "
      ++ str_of_int (user_score st) ++ "-" ++ str_of_int (bot_score st)
  else if user_score st <? bot_score st then
    "Game over. Bot wins! Final score: "
      ++ str_of_int (bot_score st) ++ "-" ++ str_of_int (user_score st)
  else
    "Game over. Draw! Final score: "
      ++ str_of_int (user_score st) ++ "-" ++ str_of_int (bot_score st).

(** What [main] writes to the terminal: the five lines of rules printed
    before the loop, the prompt of an [input] call, or the text of one
    [print] call. *)
Inductive Event : Type :=
| Banner
| Prompt (text : string)
| Print (text : string).

(** How [main] ends: it returns after the final result, or [input] raises
    EOFError at the end of the standard input. *)
Inductive Exit : Type :=
| Returned
| EOFError.

Definition prompt_of (current_state : GameState) : Event :=
  Prompt ("Round " ++ str_of_int (round_number current_state + 1)
            ++ ": Enter your move: ").

(** The [while True] loop of [main].  Each element of [stdin] is one line of
    the standard input with the random draw of the round that reads it. *)
Fixpoint game_loop (stdin : list (string * nat)) : Tool (list Event * Exit) :=
  current_state <- get_current_state ;;
  if game_over current_state then
    ret ([Print (format_final_result current_state)], Returned)
  else
    match stdin with
    | [] => ret ([prompt_of current_state], EOFError)
    | (user_input, draw) :: rest =>
        output <- Agent.run user_input draw ;;
        let shown := [prompt_of current_state; Print output; Print ""] in
        current_state <- get_current_state ;;
        if game_over current_state then
          ret ((shown ++ [Print (format_final_result current_state)])%list, Returned)
        else
          r <- game_loop rest ;;
          ret ((shown ++ fst r)%list, snd r)
    end.

Definition main (stdin : list (string * nat)) : Tool (list Event * Exit) :=
  put fresh_state ;;
  r <- game_loop stdin ;;
  ret (Banner :: fst r, snd r).

(** The moves that [Agent.run] resolves on state [g]: the validated user
    move and the bot's draw. *)
Definition round_moves (user_input : string) (draw : nat) (g : GameState)
    : string * string :=
  (normalized_move (evalState (validate_and_normalize_input user_input) g),
   evalState (get_bot_move draw) g).

(** [Agent.run] called once per element, in order. *)
Fixpoint agent_runs (stdin : list (string * nat)) : Tool (list string) :=
  match stdin with
  | [] => ret []
  | (user_input, draw) :: rest =>
      output <- Agent.run user_input draw ;;
      outputs <- agent_runs rest ;;
      ret (output :: outputs)
  end.

(** The moves resolved by the successive calls of [agent_runs] from [g]. *)
Fixpoint moves_played (stdin : list (string * nat)) (g : GameState)
    : list (string * string) :=
  match stdin with
  | [] => []
  | (user_input, draw) :: rest =>
      round_moves user_input draw g
        :: moves_played rest (execState (Agent.run user_input draw) g)
  end.

(** The calls of [update_game_state] for rounds of given moves, each with
    the outcome that [resolve_round_outcome] gives. *)
Definition resolved_calls (rounds : list (string * string))
    : list (string * string * Outcome) :=
  map (fun r => (fst r, snd r, resolve_round_outcome (fst r) (snd r))) rounds.

(** Settles a statement about [beats] and the winner of a call on concrete
    moves: an equivalence, a disjunction or an exclusion. *)
Ltac settle_atom :=
  match goal with
  | H : beats _ _ |- _ => solve [inversion H]
  | H : user_wins _ |- _ => solve [destruct H as [H _]; vm_compute in H; discriminate H]
  | H : bot_wins _ |- _ => solve [destruct H as [H _]; vm_compute in H; discriminate H]
  | |- beats _ _ => solve [constructor]
  | |- user_wins _ => solve [split; reflexivity]
  | |- bot_wins _ => solve [split; reflexivity]
  end.

Ltac settle_beats :=
  match goal with
  | |- _ <-> _ => split; intros ?; settle_atom
  | |- _ \/ _ => solve [left; constructor | right; constructor]
  | |- ~ _ => let H1 := fresh in let H2 := fresh in
              intros [H1 H2]; solve [inversion H1 | inversion H2]
  end.

(** * Properties *)

Example update_game_state_example :
  runState (update_game_state "bomb" "rock" (resolve_round_outcome "bomb" "rock"))
    fresh_state
  = (mkGameState 1 1 0 true false false, mkGameState 1 1 0 true false false).
Proof. reflexivity. Qed.

Example validate_example :
  evalState (validate_and_normalize_input "  RoCk ") fresh_state
  = mkValidation "rock" "valid".
Proof. reflexivity. Qed.

(** ** Strings *)

Lemma pair_eqb_spec (p q : string * string) :
  reflect (p = q) (pair_eqb p q).
Proof.
  destruct p as [a b], q as [c d]. unfold pair_eqb. simpl.
  destruct (String.eqb_spec a c) as [-> | Hac];
    destruct (String.eqb_spec b d) as [-> | Hbd]; simpl;
    constructor; congruence.
Qed.

Lemma dict_get_None (k : string * string) (d : list ((string * string) * string)) :
  dict_get k d = None <-> ~ In k (map fst d).
Proof.
  induction d as [| [k' v] d IH]; simpl.
  - tauto.
  - destruct (pair_eqb_spec k k') as [-> | Hk].
    + split; [discriminate | intros H; exfalso; apply H; now left].
    + rewrite IH. split.
      * intros H [E | HI]; [congruence | tauto].
      * tauto.
Qed.

Lemma str_in_spec (x : string) (l : list string) :
  PyStr.str_in x l = true <-> In x l.
Proof.
  unfold PyStr.str_in. rewrite existsb_exists. split.
  - intros [y [Hy E]]. apply String.eqb_eq in E. now subst.
  - intros H. exists x. split; [assumption | apply String.eqb_refl].
Qed.

Lemma lstrip_split (s : string) :
  exists pre, s = pre ++ PyStr.lstrip s /\ PyStr.all_space pre = true.
Proof.
  induction s as [| c s [pre [E Hpre]]]; simpl.
  - exists "". now split.
  - destruct (PyStr.is_space c) eqn:Hc.
    + exists (String c pre). simpl. rewrite Hc, Hpre. split; [now f_equal | reflexivity].
    + exists "". now split.
Qed.

Lemma lstrip_no_leading_space (s : string) :
  starts_with_space (PyStr.lstrip s) = false.
Proof.
  induction s as [| c s IH]; simpl; [reflexivity |].
  destruct (PyStr.is_space c) eqn:Hc; [assumption | simpl; assumption].
Qed.

Lemma rstrip_split (s : string) :
  exists post, s = PyStr.rstrip s ++ post /\ PyStr.all_space post = true.
Proof.
  induction s as [| c s [post [E Hpost]]]; simpl.
  - exists "". now split.
  - destruct (PyStr.rstrip s) as [| c' r] eqn:Hr.
    + simpl in E. destruct (PyStr.is_space c) eqn:Hc.
      * exists (String c post). simpl. rewrite Hc, Hpost. split; [now f_equal | reflexivity].
      * exists post. simpl. split; [now f_equal | assumption].
    + exists post. split; [| assumption]. simpl. f_equal. exact E.
Qed.

Lemma rstrip_no_trailing_space (s : string) :
  ends_with_space (PyStr.rstrip s) = false.
Proof.
  induction s as [| c s IH]; simpl; [reflexivity |].
  destruct (PyStr.rstrip s) as [| c' r] eqn:Hr.
  - destruct (PyStr.is_space c) eqn:Hc; simpl; [reflexivity | assumption].
  - exact IH.
Qed.

Lemma rstrip_keeps_head (s : string) :
  starts_with_space s = false -> starts_with_space (PyStr.rstrip s) = false.
Proof.
  destruct s as [| c s]; simpl; [reflexivity |]. intros Hc.
  destruct (PyStr.rstrip s); [rewrite Hc |]; simpl; assumption.
Qed.

(** [strip] removes a whitespace prefix and a whitespace suffix, and what is
    left neither starts nor ends with whitespace. *)
Lemma strip_spec (s : string) :
  (exists pre post,
      s = pre ++ PyStr.strip s ++ post
      /\ PyStr.all_space pre = true /\ PyStr.all_space post = true)
  /\ starts_with_space (PyStr.strip s) = false
  /\ ends_with_space (PyStr.strip s) = false.
Proof.
  unfold PyStr.strip. split; [| split].
  - destruct (lstrip_split s) as [pre [E Hpre]].
    destruct (rstrip_split (PyStr.lstrip s)) as [post [E' Hpost]].
    exists pre, post. split; [| now split].
    rewrite <- E'. exact E.
  - apply rstrip_keeps_head, lstrip_no_leading_space.
  - apply rstrip_no_trailing_space.
Qed.

(** [lower] moves the capitals 32 code points up and keeps the rest. *)
Lemma to_lower_spec (c : ascii) :
  N_of_ascii (PyStr.to_lower c)
  = if PyStr.is_upper c then (N_of_ascii c + 32)%N else N_of_ascii c.
Proof.
  destruct c as [[] [] [] [] [] [] [] []]; reflexivity.
Qed.

Lemma to_lower_idempotent (c : ascii) :
  PyStr.to_lower (PyStr.to_lower c) = PyStr.to_lower c.
Proof.
  destruct c as [[] [] [] [] [] [] [] []]; reflexivity.
Qed.

Lemma lower_length (s : string) :
  String.length (PyStr.lower s) = String.length s.
Proof.
  induction s as [| c s IH]; simpl; congruence.
Qed.

(** ** Outcome resolution *)

Lemma wins_exclusive (o : Outcome) : ~ (user_wins o /\ bot_wins o).
Proof.
  unfold user_wins, bot_wins. intros [[Hu _] [Hb _]].
  rewrite Hu in Hb. discriminate.
Qed.

(** Bomb against anything but bomb: the side that plays it wins. *)
Lemma user_bomb_wins (bot_move : string) :
  bot_move <> "bomb" ->
  resolve_round_outcome "bomb" bot_move
  = mkOutcome "win" "user" "User wins this round (bomb beats all)." 1 0.
Proof.
  intros H. unfold resolve_round_outcome.
  destruct (String.eqb_spec "bomb" "invalid") as [E | _]; [discriminate E |].
  destruct (String.eqb_spec "bomb" bot_move) as [E | _]; [congruence |].
  reflexivity.
Qed.

Lemma bot_bomb_wins (user_move : string) :
  user_move <> "invalid" -> user_move <> "bomb" ->
  resolve_round_outcome user_move "bomb"
  = mkOutcome "win" "bot" "Bot wins this round (bomb beats all)." 0 1.
Proof.
  intros Hi Hb. unfold resolve_round_outcome.
  destruct (String.eqb_spec user_move "invalid") as [E | _]; [congruence |].
  destruct (String.eqb_spec user_move "bomb") as [E | _]; [congruence |].
  reflexivity.
Qed.

(** The last branch of [resolve_round_outcome]. *)
Lemma resolve_fallthrough (user_move bot_move : string) :
  user_move <> "invalid" -> user_move <> bot_move ->
  user_move <> "bomb" -> bot_move <> "bomb" ->
  ~ In (user_move, bot_move) user_winning_pairs ->
  resolve_round_outcome user_move bot_move
  = mkOutcome "win" "bot" "Bot wins this round." 0 1.
Proof.
  intros Hi Hd Hu Hb Hw. unfold resolve_round_outcome.
  destruct (String.eqb_spec user_move "invalid") as [E | _]; [congruence |].
  destruct (String.eqb_spec user_move bot_move) as [E | _]; [congruence |].
  destruct (String.eqb_spec user_move "bomb") as [E | _]; [congruence |].
  destruct (String.eqb_spec bot_move "bomb") as [E | _]; [congruence |].
  apply dict_get_None in Hw. rewrite Hw. reflexivity.
Qed.

Lemma resolve_deltas (user_move bot_move : string) :
  In (deltas (resolve_round_outcome user_move bot_move)) [(0, 0); (1, 0); (0, 1)].
Proof.
  unfold resolve_round_outcome.
  destruct (user_move =? "invalid")%string; [now left |].
  destruct (user_move =? bot_move)%string; [now left |].
  destruct (user_move =? "bomb")%string; [right; now left |].
  destruct (bot_move =? "bomb")%string; [right; right; now left |].
  destruct (dict_get (user_move, bot_move) win_conditions);
    [right; now left | right; right; now left].
Qed.

(** C2: for every bot move, also a canonical one, also "invalid" and "bomb",
    an invalid user move resolves to result invalid, winner bot, both score
    deltas 0 and the forfeit message: the first branch wins over the draw,
    bomb and beats rules. *)
Theorem resolve_invalid_forfeits (bot_move : string) :
  resolve_round_outcome "invalid" bot_move
  = mkOutcome "invalid" "bot" "Invalid input. Round forfeited." 0 0.
Proof. reflexivity. Qed.

(** C3: bomb against bomb is a draw with deltas (0,0); against every
    canonical move other than bomb, the user's bomb wins with deltas (1,0)
    and the bot's bomb wins with deltas (0,1). *)
Theorem resolve_bomb (x : string) (Hx : In x non_bomb_moves) :
  (result (resolve_round_outcome "bomb" "bomb") = "draw"
   /\ winner (resolve_round_outcome "bomb" "bomb") = "none"
   /\ deltas (resolve_round_outcome "bomb" "bomb") = (0, 0))
  /\ user_wins (resolve_round_outcome "bomb" x)
  /\ bot_wins (resolve_round_outcome x "bomb").
Proof.
  split; [repeat split |].
  assert (Hb : x <> "bomb" /\ x <> "invalid").
  { simpl in Hx. destruct Hx as [<- | [<- | [<- | []]]]; split; discriminate. }
  destruct Hb as [Hb Hi].
  rewrite (user_bomb_wins x Hb), (bot_bomb_wins x Hi Hb).
  split; split; reflexivity.
Qed.

Lemma resolve_bomb_witness :
  user_wins (resolve_round_outcome "bomb" "rock")
  /\ bot_wins (resolve_round_outcome "rock" "bomb").
Proof.
  apply (resolve_bomb "rock"). simpl. left. reflexivity.
Defined.

(** C4: for two distinct canonical moves other than bomb, the user wins
    [resolve a b] exactly when [a] beats [b] and the bot wins it exactly when
    [b] beats [a], the same holds for the swapped call, and exactly one of
    [a] beats [b], [b] beats [a] holds: one call is a user win with deltas
    (1,0), the other a bot win with deltas (0,1), none is left unresolved. *)
Theorem resolve_asymmetric (a b : string)
    (Ha : In a non_bomb_moves) (Hb : In b non_bomb_moves) (Hab : a <> b) :
  (user_wins (resolve_round_outcome a b) <-> beats a b)
  /\ (bot_wins (resolve_round_outcome a b) <-> beats b a)
  /\ (user_wins (resolve_round_outcome b a) <-> beats b a)
  /\ (bot_wins (resolve_round_outcome b a) <-> beats a b)
  /\ (beats a b \/ beats b a)
  /\ ~ (beats a b /\ beats b a).
Proof.
  simpl in Ha, Hb.
  destruct Ha as [<- | [<- | [<- | []]]];
    destruct Hb as [<- | [<- | [<- | []]]];
    try (exfalso; apply Hab; reflexivity);
    repeat match goal with |- _ /\ _ => split end;
    settle_beats.
Qed.

Lemma resolve_asymmetric_witness :
  user_wins (resolve_round_outcome "rock" "scissors")
  /\ bot_wins (resolve_round_outcome "scissors" "rock").
Proof.
  assert (Ha : In "rock" non_bomb_moves) by (simpl; tauto).
  assert (Hb : In "scissors" non_bomb_moves) by (simpl; tauto).
  assert (Hab : "rock" <> "scissors") by discriminate.
  destruct (resolve_asymmetric "rock" "scissors" Ha Hb Hab)
    as [Hu [_ [_ [Hbw _]]]].
  split; [apply Hu | apply Hbw]; constructor.
Defined.

(** C10: [resolve_round_outcome] is a total function of two arbitrary
    strings; its deltas are (0,0), (1,0) or (0,1); and two distinct strings
    with the user move neither "invalid" nor "bomb", the bot move not "bomb"
    and the pair not a key of [win_conditions] reach the last branch, a bot
    win with deltas (0,1), whatever the strings are. *)
Theorem resolve_total_fallthrough (user_move bot_move : string) :
  In (deltas (resolve_round_outcome user_move bot_move)) [(0, 0); (1, 0); (0, 1)]
  /\ (user_move <> bot_move ->
      user_move <> "invalid" -> user_move <> "bomb" -> bot_move <> "bomb" ->
      ~ In (user_move, bot_move) user_winning_pairs ->
      resolve_round_outcome user_move bot_move
      = mkOutcome "win" "bot" "Bot wins this round." 0 1).
Proof.
  split; [apply resolve_deltas |].
  intros Hd Hi Hu Hb Hw. now apply resolve_fallthrough.
Qed.

Lemma resolve_total_fallthrough_witness :
  resolve_round_outcome "rock" "lizard"
  = mkOutcome "win" "bot" "Bot wins this round." 0 1.
Proof.
  apply (proj2 (resolve_total_fallthrough "rock" "lizard")); try discriminate.
  unfold user_winning_pairs. simpl.
  intros [H | [H | [H | []]]]; discriminate H.
Defined.

(** ** State update *)

Lemma runState_bind {A B : Type} (c : Tool A) (f : A -> Tool B) (g : GameState) :
  runState (bind c f) g = let (v, g') := runState c g in runState (f v) g'.
Proof. reflexivity. Qed.

(** [update_game_state] returns the dict of the state it leaves, and that
    state is [round_applied]. *)
Lemma update_game_state_run (user_move bot_move : string) (outcome : Outcome)
    (g : GameState) :
  runState (update_game_state user_move bot_move outcome) g
  = (round_applied user_move bot_move outcome g,
     round_applied user_move bot_move outcome g).
Proof.
  unfold update_game_state, round_applied, when.
  destruct g as [rn us bs ub bb go]. cbn.
  destruct (user_move =? "bomb")%string, (bot_move =? "bomb")%string;
    cbn; destruct (3 <=? rn + 1); cbn;
    rewrite ?orb_true_r, ?orb_false_r; reflexivity.
Qed.

Lemma play_round_run (user_move bot_move : string) (g : GameState) :
  runState (play_round user_move bot_move) g
  = let o := resolve_round_outcome user_move bot_move in
    ((o, round_applied user_move bot_move o g),
     round_applied user_move bot_move o g).
Proof.
  unfold play_round. cbv zeta.
  rewrite runState_bind, update_game_state_run. reflexivity.
Qed.

Lemma update_rounds_cons (user_move bot_move : string) (outcome : Outcome)
    (rest : list (string * string * Outcome)) (g : GameState) :
  execState (update_rounds ((user_move, bot_move, outcome) :: rest)) g
  = execState (update_rounds rest) (round_applied user_move bot_move outcome g).
Proof.
  unfold execState. cbn [update_rounds].
  rewrite runState_bind, update_game_state_run. reflexivity.
Qed.

(** The round counter counts the calls, and [game_over] follows it as long
    as it did so before. *)
Lemma update_rounds_counter (calls : list (string * string * Outcome))
    (g : GameState) :
  game_over g = (3 <=? round_number g) ->
  let g' := execState (update_rounds calls) g in
  round_number g' = round_number g + Z.of_nat (length calls)
  /\ game_over g' = (3 <=? round_number g').
Proof.
  revert g. induction calls as [| [[u b] o] rest IH]; intros g Hg.
  - cbn. split; [lia | assumption].
  - cbv zeta. rewrite update_rounds_cons.
    set (g1 := round_applied u b o g).
    assert (H1 : game_over g1 = (3 <=? round_number g1)).
    { unfold g1, round_applied. cbn. rewrite Hg.
      destruct (Z.leb_spec 3 (round_number g));
        destruct (Z.leb_spec 3 (round_number g + 1)); try reflexivity; lia. }
    destruct (IH g1 H1) as [Hr Ho]. split; [| exact Ho].
    rewrite Hr. unfold g1, round_applied. cbn [round_number length]. lia.
Qed.

(** A bomb flag that is set stays set over any number of calls. *)
Lemma update_rounds_flags (calls : list (string * string * Outcome))
    (g : GameState) :
  let g' := execState (update_rounds calls) g in
  (user_bomb_used g = true -> user_bomb_used g' = true)
  /\ (bot_bomb_used g = true -> bot_bomb_used g' = true).
Proof.
  revert g. induction calls as [| [[u b] o] rest IH]; intros g.
  - cbn. tauto.
  - cbv zeta. rewrite update_rounds_cons.
    destruct (IH (round_applied u b o g)) as [Hu Hb].
    split; intros H; [apply Hu | apply Hb]; cbn; rewrite H; reflexivity.
Qed.

(** C6: from a fresh state, three calls of [update_game_state], with any
    moves and any outcome dicts (those of [resolve_round_outcome] among
    them), leave round_number = 3 and game_over = true; no call, one call or
    two calls leave game_over = false. *)
Theorem three_updates_end_game (calls : list (string * string * Outcome)) :
  let g := execState (update_rounds calls) fresh_state in
  (length calls = 3%nat -> round_number g = 3 /\ game_over g = true)
  /\ ((length calls < 3)%nat -> game_over g = false).
Proof.
  destruct (update_rounds_counter calls fresh_state eq_refl) as [Hr Ho].
  cbv zeta. cbn [round_number fresh_state] in Hr.
  split; intros Hl.
  - rewrite Ho, Hr, Hl. split; reflexivity.
  - rewrite Ho, Hr. apply Z.leb_gt. lia.
Qed.

Lemma three_updates_end_game_witness :
  (round_number (execState (update_rounds sample_calls) fresh_state) = 3
   /\ game_over (execState (update_rounds sample_calls) fresh_state) = true)
  /\ game_over (execState (update_rounds (tl sample_calls)) fresh_state) = false.
Proof.
  split.
  - apply (proj1 (three_updates_end_game sample_calls)). reflexivity.
  - apply (proj2 (three_updates_end_game (tl sample_calls))). simpl. lia.
Defined.

(** C7: a bomb flag that is true before [update_game_state] is true after
    it, for every state, moves and outcome; and a flag that was false is
    true after the call exactly when that side's move of the round is
    "bomb". *)
Theorem bomb_flags_monotonic (user_move bot_move : string) (outcome : Outcome)
    (g : GameState) :
  let g' := execState (update_game_state user_move bot_move outcome) g in
  (user_bomb_used g = true -> user_bomb_used g' = true)
  /\ (bot_bomb_used g = true -> bot_bomb_used g' = true)
  /\ (user_bomb_used g = false ->
      (user_bomb_used g' = true <-> user_move = "bomb"))
  /\ (bot_bomb_used g = false ->
      (bot_bomb_used g' = true <-> bot_move = "bomb")).
Proof.
  cbv zeta. unfold execState. rewrite update_game_state_run.
  cbn [snd round_applied user_bomb_used bot_bomb_used].
  split; [| split; [| split]]; intros H; rewrite H; cbn [orb];
    try reflexivity; apply String.eqb_eq.
Qed.

Lemma bomb_flags_monotonic_witness :
  user_bomb_used
    (execState (update_game_state "rock" "paper"
                  (resolve_round_outcome "rock" "paper"))
       (mkGameState 1 1 0 true false false)) = true
  /\ bot_bomb_used
       (execState (update_game_state "rock" "bomb"
                     (resolve_round_outcome "rock" "bomb"))
          fresh_state) = true.
Proof.
  split.
  - apply (proj1 (bomb_flags_monotonic "rock" "paper" _
                    (mkGameState 1 1 0 true false false))).
    reflexivity.
  - apply (proj2 (proj2 (proj2 (bomb_flags_monotonic "rock" "bomb" _ fresh_state)))).
    + reflexivity.
    + reflexivity.
Defined.

(** C1, the claim refuted: at the end of the scenario game_over is true, and
    a further [update_game_state] returns a state dict as in any round, with
    round_number 4 and the user score raised to 4. *)
Lemma update_after_game_over_mutates :
  game_over terminal_state = true
  /\ runState (update_game_state "rock" "scissors"
                (resolve_round_outcome "rock" "scissors")) terminal_state
     = (mkGameState 4 4 0 true false true, mkGameState 4 4 0 true false true)
  /\ execState (update_game_state "rock" "scissors"
                 (resolve_round_outcome "rock" "scissors")) terminal_state
     <> terminal_state.
Proof.
  split; [reflexivity | split; [vm_compute; reflexivity |]].
  vm_compute. discriminate.
Qed.

(** C1, amended: [update_game_state] has no check of game_over.  On a state
    whose game_over is true it returns the state dict as in any other round:
    round_number raised by 1, the deltas added to the scores, a bomb flag set
    when that side's move is "bomb", and game_over still true. *)
Theorem update_after_game_over (user_move bot_move : string) (outcome : Outcome)
    (g : GameState) (Hover : game_over g = true) :
  let g' :=
    mkGameState (round_number g + 1)
      (user_score g + user_score_delta outcome)
      (bot_score g + bot_score_delta outcome)
      (user_bomb_used g || (user_move =? "bomb")%string)
      (bot_bomb_used g || (bot_move =? "bomb")%string)
      true in
  runState (update_game_state user_move bot_move outcome) g = (g', g').
Proof.
  cbv zeta. rewrite update_game_state_run. unfold round_applied.
  rewrite Hover. reflexivity.
Qed.

Lemma update_after_game_over_witness :
  game_over terminal_state = true
  /\ runState (update_game_state "paper" "bomb"
                (resolve_round_outcome "paper" "bomb")) terminal_state
     = (mkGameState 4 3 1 true true true, mkGameState 4 3 1 true true true).
Proof.
  split; [reflexivity |].
  apply (update_after_game_over "paper" "bomb"
           (resolve_round_outcome "paper" "bomb") terminal_state).
  reflexivity.
Defined.

(** C9, the claim refuted: in round 2 the user plays paper against rock,
    which is a key of [win_conditions], so the user wins it; the scenario
    does not end on 2-1. *)
Lemma scenario_round2_user_wins :
  resolve_round_outcome "paper" "rock"
  = mkOutcome "win" "user" "User wins this round." 1 0
  /\ user_score terminal_state <> 2
  /\ bot_score terminal_state <> 1.
Proof.
  split; [reflexivity | split; vm_compute; discriminate].
Qed.

(** C9, amended: the scenario, round by round: the user wins round 1 (1-0),
    the user wins round 2, paper against rock (2-0), the user wins round 3
    with the bomb (3-0); the state at the end has round_number 3,
    user_score 3, bot_score 0, user_bomb_used true and game_over true. *)
Theorem scenario_run :
  runState scenario fresh_state
  = ([ (mkOutcome "win" "user" "User wins this round." 1 0,
        mkGameState 1 1 0 false false false);
       (mkOutcome "win" "user" "User wins this round." 1 0,
        mkGameState 2 2 0 false false false);
       (mkOutcome "win" "user" "User wins this round (bomb beats all)." 1 0,
        mkGameState 3 3 0 true false true) ],
     mkGameState 3 3 0 true false true).
Proof. vm_compute. reflexivity. Qed.

(** ** Validation *)

(** [validate_and_normalize_input] reads [_game_state] and leaves it as it
    is; its result in closed form. *)
Lemma validate_run (user_input : string) (g : GameState) :
  runState (validate_and_normalize_input user_input) g
  = (let normalized := PyStr.lower (PyStr.strip user_input) in
     if negb (PyStr.str_in normalized valid_moves) then
       mkValidation "invalid"
         "Invalid move. Must be one of: rock, paper, scissors, bomb."
     else if (normalized =? "bomb")%string && user_bomb_used g then
       mkValidation "invalid" "Bomb already used. Cannot use bomb again."
     else mkValidation normalized "valid",
     g).
Proof.
  unfold validate_and_normalize_input. cbv zeta.
  destruct (negb (PyStr.str_in (PyStr.lower (PyStr.strip user_input)) valid_moves));
    [reflexivity |].
  rewrite runState_bind. cbn [get MonadState_state runState].
  destruct ((PyStr.lower (PyStr.strip user_input) =? "bomb")%string
            && user_bomb_used g); reflexivity.
Qed.

(** C5: the validator works on the input with its leading and trailing
    whitespace removed and lowercased.  A normalized text that is not one of
    rock, paper, scissors, bomb gives "invalid" with the must-be-one-of
    message; the normalized text bomb with the user's bomb flag set gives
    "invalid" with the bomb-reuse message; any other normalized text is
    returned as the move with status valid; and the input BOMB followed by a
    space, with the flag not set, normalizes to bomb. *)
Theorem validate_normalizes (user_input : string) (g : GameState) :
  let core := PyStr.strip user_input in
  let normalized := PyStr.lower core in
  let v := evalState (validate_and_normalize_input user_input) g in
  ((exists pre post,
       user_input = pre ++ core ++ post
       /\ PyStr.all_space pre = true /\ PyStr.all_space post = true)
   /\ starts_with_space core = false
   /\ ends_with_space core = false)
  /\ (~ In normalized valid_moves ->
      v = mkValidation "invalid"
            "Invalid move. Must be one of: rock, paper, scissors, bomb.")
  /\ (normalized = "bomb" -> user_bomb_used g = true ->
      v = mkValidation "invalid" "Bomb already used. Cannot use bomb again.")
  /\ (In normalized valid_moves ->
      normalized <> "bomb" \/ user_bomb_used g = false ->
      v = mkValidation normalized "valid")
  /\ (user_bomb_used g = false ->
      evalState (validate_and_normalize_input "BOMB ") g
      = mkValidation "bomb" "valid").
Proof.
  cbv zeta. split; [apply strip_spec |].
  unfold evalState. rewrite !validate_run. cbv zeta. cbn [fst].
  split; [| split; [| split]].
  - intros Hn. rewrite <- str_in_spec in Hn.
    apply not_true_is_false in Hn. rewrite Hn. reflexivity.
  - intros Hb Hu. rewrite Hb, Hu. reflexivity.
  - intros Hn Hc. apply str_in_spec in Hn. rewrite Hn. cbn [negb].
    destruct Hc as [Hc | Hc].
    + apply String.eqb_neq in Hc. rewrite Hc. reflexivity.
    + rewrite Hc, andb_false_r. reflexivity.
  - intros Hu. vm_compute PyStr.lower. cbn. rewrite Hu. reflexivity.
Qed.

Lemma validate_normalizes_witness :
  evalState (validate_and_normalize_input " Lizard") fresh_state
  = mkValidation "invalid"
      "Invalid move. Must be one of: rock, paper, scissors, bomb."
  /\ evalState (validate_and_normalize_input "bomb")
       (mkGameState 1 1 0 true false false)
     = mkValidation "invalid" "Bomb already used. Cannot use bomb again."
  /\ evalState (validate_and_normalize_input "BOMB ") fresh_state
     = mkValidation "bomb" "valid".
Proof.
  split; [| split].
  - apply (proj1 (proj2 (validate_normalizes " Lizard" fresh_state))).
    vm_compute. intros [H | [H | [H | [H | []]]]]; discriminate H.
  - apply (proj1 (proj2 (proj2
             (validate_normalizes "bomb" (mkGameState 1 1 0 true false false)))));
      reflexivity.
  - apply (proj2 (proj2 (proj2 (proj2 (validate_normalizes "" fresh_state))))).
    reflexivity.
Defined.

(** C8: validation leaves the game state as it is, and its result depends
    on the state through the user's bomb flag only: on two states that agree
    on user_bomb_used, the same raw input gives the same move and status. *)
Theorem validate_pure (user_input : string) (g1 g2 : GameState)
    (Hflag : user_bomb_used g1 = user_bomb_used g2) :
  evalState (validate_and_normalize_input user_input) g1
  = evalState (validate_and_normalize_input user_input) g2
  /\ execState (validate_and_normalize_input user_input) g1 = g1
  /\ execState (validate_and_normalize_input user_input) g2 = g2.
Proof.
  unfold evalState, execState. rewrite !validate_run. cbv zeta. cbn [fst snd].
  rewrite Hflag. repeat split.
Qed.

Lemma validate_pure_witness :
  evalState (validate_and_normalize_input "Bomb") fresh_state
  = evalState (validate_and_normalize_input "Bomb")
      (mkGameState 2 1 1 false true false)
  /\ execState (validate_and_normalize_input "Bomb") fresh_state = fresh_state.
Proof.
  destruct (validate_pure "Bomb" fresh_state
              (mkGameState 2 1 1 false true false) eq_refl) as [He [Hs _]].
  split; [exact He | exact Hs].
Defined.

(** * Further properties of the module *)

Example agent_run_example :
  runState (Agent.run " Paper" 0) fresh_state
  = (join_lines
       [ "Round 1:"; "User move: paper"; "Bot move: rock";
         "User wins this round."; "Current score - User: 1, Bot: 0" ],
     mkGameState 1 1 0 false false false).
Proof. vm_compute. reflexivity. Qed.

Example main_example :
  runState (main [("rock", 3%nat); ("lizard", 1%nat); ("BOMB", 2%nat); ("x", 0%nat)])
    terminal_state
  = (evalState (main [("rock", 3%nat); ("lizard", 1%nat); ("BOMB", 2%nat)]) fresh_state,
     mkGameState 3 1 1 true true true).
Proof. vm_compute. reflexivity. Qed.

(** ** The bot's move *)

Lemma random_choice_In (draw : nat) (moves : list string) :
  moves <> [] -> In (random_choice draw moves) moves.
Proof.
  intros Hne. unfold random_choice. apply nth_In.
  apply Nat.mod_upper_bound. destruct moves; [congruence | discriminate].
Qed.

Lemma get_bot_move_run (draw : nat) (g : GameState) :
  runState (get_bot_move draw) g
  = (random_choice draw
       (if negb (bot_bomb_used g)
        then ["rock"; "paper"; "scissors"; "bomb"]
        else ["rock"; "paper"; "scissors"]),
     g).
Proof.
  unfold get_bot_move. rewrite runState_bind.
  cbn [get MonadState_state runState]. cbv zeta.
  destruct (bot_bomb_used g); reflexivity.
Qed.

(** [get_bot_move] leaves the state as it is, and the moves it can return,
    over all random draws, are rock, paper and scissors, and bomb exactly
    when the bot's bomb flag is not set. *)
Theorem get_bot_move_choices (g : GameState) (m : string) :
  (forall draw, execState (get_bot_move draw) g = g)
  /\ ((exists draw, evalState (get_bot_move draw) g = m)
      <-> In m non_bomb_moves \/ (m = "bomb" /\ bot_bomb_used g = false)).
Proof.
  split.
  - intros draw. unfold execState. rewrite get_bot_move_run. reflexivity.
  - unfold evalState. split.
    + intros [draw <-]. rewrite get_bot_move_run. cbn [fst].
      destruct (bot_bomb_used g); cbn [negb].
      * left. apply (random_choice_In draw non_bomb_moves). discriminate.
      * assert (H : In (random_choice draw ["rock"; "paper"; "scissors"; "bomb"])
                       ["rock"; "paper"; "scissors"; "bomb"])
          by (apply random_choice_In; discriminate).
        simpl in H. simpl.
        destruct H as [H | [H | [H | [H | []]]]]; rewrite <- H; auto.
    + intros [Hm | [-> Hb]].
      * simpl in Hm.
        destruct Hm as [<- | [<- | [<- | []]]];
          [exists 0%nat | exists 1%nat | exists 2%nat];
          rewrite get_bot_move_run; destruct (bot_bomb_used g); reflexivity.
      * exists 3%nat. rewrite get_bot_move_run, Hb. reflexivity.
Qed.

(** ** More on outcome resolution *)

(** For any two strings: the result is invalid, draw or win; the user scores
    exactly when the winner is the user; the bot scores exactly when the
    winner is the bot and the result is a win (a forfeit names the bot as
    winner and scores nothing); and no round scores for both. *)
Theorem resolve_score_follows_winner (user_move bot_move : string) :
  let o := resolve_round_outcome user_move bot_move in
  In (result o) ["invalid"; "draw"; "win"]
  /\ (user_score_delta o = 1 <-> winner o = "user")
  /\ (bot_score_delta o = 1 <-> winner o = "bot" /\ result o = "win")
  /\ user_score_delta o + bot_score_delta o <= 1.
Proof.
  cbv zeta. unfold resolve_round_outcome.
  destruct (user_move =? "invalid")%string;
    [| destruct (user_move =? bot_move)%string;
       [| destruct (user_move =? "bomb")%string;
          [| destruct (bot_move =? "bomb")%string;
             [| destruct (dict_get (user_move, bot_move) win_conditions)]]]];
    cbn [result winner user_score_delta bot_score_delta];
    (split; [simpl; tauto |]);
    (split; [split; intros H; (reflexivity || discriminate H) |]);
    (split; [| lia]);
    split; try (intros H; discriminate H); try (intros [H1 H2]; discriminate);
    try (intros _; split; reflexivity); try (intros _; reflexivity).
Qed.

(** For any two strings: a round is forfeited exactly when the user move is
    "invalid", and it is a draw exactly when the two moves are equal and not
    "invalid". *)
Theorem resolve_forfeit_and_draw (user_move bot_move : string) :
  let o := resolve_round_outcome user_move bot_move in
  (result o = "invalid" <-> user_move = "invalid")
  /\ (result o = "draw" <-> user_move = bot_move /\ user_move <> "invalid").
Proof.
  cbv zeta. unfold resolve_round_outcome.
  destruct (String.eqb_spec user_move "invalid") as [Hi | Hi].
  - cbn [result]. split; split;
      solve [tauto | discriminate | intros [_ H]; contradiction].
  - destruct (String.eqb_spec user_move bot_move) as [He | He].
    + cbn [result]. split; split; solve [tauto | discriminate].
    + assert (Hw : forall o : Outcome, result o = "win" ->
                (result o = "invalid" <-> user_move = "invalid")
                /\ (result o = "draw" <-> user_move = bot_move /\ user_move <> "invalid")).
      { intros o Ho. rewrite Ho. split; split; try discriminate; tauto. }
      apply Hw.
      destruct (user_move =? "bomb")%string; [reflexivity |].
      destruct (bot_move =? "bomb")%string; [reflexivity |].
      destruct (dict_get (user_move, bot_move) win_conditions); reflexivity.
Qed.

(** On the four valid moves the rules do not depend on the side: the user
    wins [resolve a b] exactly when the bot wins [resolve b a], and the
    round is a draw exactly when the moves are equal. *)
Theorem resolve_role_swap (a b : string)
    (Ha : In a valid_moves) (Hb : In b valid_moves) :
  (user_wins (resolve_round_outcome a b) <-> bot_wins (resolve_round_outcome b a))
  /\ (bot_wins (resolve_round_outcome a b) <-> user_wins (resolve_round_outcome b a))
  /\ (result (resolve_round_outcome a b) = "draw" <-> a = b).
Proof.
  simpl in Ha, Hb.
  destruct Ha as [<- | [<- | [<- | [<- | []]]]];
    destruct Hb as [<- | [<- | [<- | [<- | []]]]];
    (split; [| split]); split; intros H;
    first [ reflexivity
          | split; reflexivity
          | discriminate H
          | destruct H as [H _]; vm_compute in H; discriminate H ].
Qed.

Lemma resolve_role_swap_witness :
  user_wins (resolve_round_outcome "bomb" "paper")
  <-> bot_wins (resolve_round_outcome "paper" "bomb").
Proof.
  apply (resolve_role_swap "bomb" "paper"); simpl; tauto.
Defined.

(** ** More on validation *)

Lemma lstrip_pad (pre s : string) :
  PyStr.all_space pre = true -> PyStr.lstrip (pre ++ s) = PyStr.lstrip s.
Proof.
  induction pre as [| c pre IH]; simpl; [reflexivity |].
  intros H. apply andb_prop in H. destruct H as [Hc Hp].
  rewrite Hc. apply IH, Hp.
Qed.

Lemma rstrip_all_space (post : string) :
  PyStr.all_space post = true -> PyStr.rstrip post = "".
Proof.
  induction post as [| c post IH]; simpl; [reflexivity |].
  intros H. apply andb_prop in H. destruct H as [Hc Hp].
  rewrite (IH Hp), Hc. reflexivity.
Qed.

Lemma rstrip_pad (s post : string) :
  PyStr.all_space post = true -> PyStr.rstrip (s ++ post) = PyStr.rstrip s.
Proof.
  intros Hp. induction s as [| c s IH]; simpl.
  - apply rstrip_all_space, Hp.
  - rewrite IH. reflexivity.
Qed.

Lemma strip_pad (pre s post : string) :
  PyStr.all_space pre = true -> PyStr.all_space post = true ->
  PyStr.strip (pre ++ s ++ post) = PyStr.strip s.
Proof.
  intros Hpre Hpost. unfold PyStr.strip. rewrite (lstrip_pad _ _ Hpre).
  induction s as [| c s IH]; simpl.
  - rewrite <- (lstrip_pad post "" Hpost) at 1.
    replace (post ++ "") with post.
    + destruct (lstrip_split post) as [p [E Hp]].
      assert (Hl : PyStr.lstrip post = "").
      { clear E Hp p. induction post as [| c post IH]; simpl; [reflexivity |].
        simpl in Hpost. apply andb_prop in Hpost. destruct Hpost as [Hc Hq].
        rewrite Hc. apply IH, Hq. }
      rewrite Hl. reflexivity.
    + clear. induction post as [| c post IH]; simpl; congruence.
  - destruct (PyStr.is_space c); [exact IH |].
    change (String c (s ++ post)) with (String c s ++ post).
    apply rstrip_pad, Hpost.
Qed.

Lemma is_space_to_lower (c : ascii) :
  PyStr.is_space (PyStr.to_lower c) = PyStr.is_space c.
Proof.
  destruct c as [[] [] [] [] [] [] [] []]; reflexivity.
Qed.

Lemma lstrip_lower (s : string) :
  PyStr.lstrip (PyStr.lower s) = PyStr.lower (PyStr.lstrip s).
Proof.
  induction s as [| c s IH]; simpl; [reflexivity |].
  rewrite is_space_to_lower. destruct (PyStr.is_space c); [exact IH | reflexivity].
Qed.

Lemma rstrip_lower (s : string) :
  PyStr.rstrip (PyStr.lower s) = PyStr.lower (PyStr.rstrip s).
Proof.
  induction s as [| c s IH]; simpl; [reflexivity |].
  rewrite IH, is_space_to_lower.
  destruct (PyStr.rstrip s); simpl; [destruct (PyStr.is_space c) |]; reflexivity.
Qed.

Lemma lower_idempotent (s : string) :
  PyStr.lower (PyStr.lower s) = PyStr.lower s.
Proof.
  induction s as [| c s IH]; simpl; [reflexivity |].
  rewrite to_lower_idempotent, IH. reflexivity.
Qed.

Lemma lower_strip (s : string) :
  PyStr.lower (PyStr.strip s) = PyStr.strip (PyStr.lower s).
Proof.
  unfold PyStr.strip. rewrite lstrip_lower, rstrip_lower. reflexivity.
Qed.

(** The validator returns "invalid" or one of the four valid moves, its
    status is valid exactly when the move is a valid one, and it never
    returns bomb once the user's bomb flag is set. *)
Theorem validate_range (user_input : string) (g : GameState) :
  let v := evalState (validate_and_normalize_input user_input) g in
  (normalized_move v = "invalid" \/ In (normalized_move v) valid_moves)
  /\ (status v = "valid" <-> In (normalized_move v) valid_moves)
  /\ (user_bomb_used g = true -> normalized_move v <> "bomb").
Proof.
  assert (Hinv : ~ In "invalid" valid_moves).
  { simpl. intros [H | [H | [H | [H | []]]]]; discriminate H. }
  cbv zeta. unfold evalState. rewrite validate_run. cbv zeta. cbn [fst].
  destruct (PyStr.str_in (PyStr.lower (PyStr.strip user_input)) valid_moves) eqn:Hin;
    cbn [negb].
  - apply str_in_spec in Hin.
    destruct (String.eqb_spec (PyStr.lower (PyStr.strip user_input)) "bomb") as [Hb | Hb];
      destruct (user_bomb_used g) eqn:Hu;
      cbn [andb normalized_move status];
      (split; [tauto |]);
      (split; [split; intros H;
               solve [assumption | reflexivity | discriminate H | contradiction] |]);
      intros H; solve [discriminate H | assumption | discriminate].
  - cbn [normalized_move status]. split; [tauto |].
    split; [split; intros H; [discriminate H | contradiction] |].
    intros _. discriminate.
Qed.

Lemma validate_range_witness :
  normalized_move
    (evalState (validate_and_normalize_input " Bomb")
       (mkGameState 2 1 0 true false false)) <> "bomb".
Proof.
  apply (proj2 (proj2 (validate_range " Bomb" (mkGameState 2 1 0 true false false)))).
  reflexivity.
Defined.

(** The validator ignores letter case and surrounding whitespace: two
    inputs with the same lowercase form validate alike, and so do an input
    and the same input between two runs of whitespace. *)
Theorem validate_ignores_case_and_padding (a b pre post : string) (g : GameState)
    (Hcase : PyStr.lower a = PyStr.lower b)
    (Hpre : PyStr.all_space pre = true) (Hpost : PyStr.all_space post = true) :
  runState (validate_and_normalize_input a) g
  = runState (validate_and_normalize_input b) g
  /\ runState (validate_and_normalize_input (pre ++ a ++ post)) g
     = runState (validate_and_normalize_input a) g.
Proof.
  rewrite !validate_run. cbv zeta.
  rewrite (strip_pad pre a post Hpre Hpost).
  rewrite (lower_strip a), (lower_strip b), Hcase. split; reflexivity.
Qed.

Lemma validate_ignores_case_and_padding_witness :
  runState (validate_and_normalize_input "ScIsSoRs") fresh_state
  = runState (validate_and_normalize_input "sCiSsOrS") fresh_state
  /\ runState (validate_and_normalize_input ("  " ++ "ScIsSoRs" ++ " ")) fresh_state
     = runState (validate_and_normalize_input "ScIsSoRs") fresh_state.
Proof.
  apply (validate_ignores_case_and_padding "ScIsSoRs" "sCiSsOrS" "  " " " fresh_state);
    reflexivity.
Defined.

(** A move that the validator accepts is its own normal form: validating the
    returned move again, on the same state, gives the same result. *)
Theorem validate_accepted_is_fixed (user_input : string) (g : GameState)
    (Hvalid : status (evalState (validate_and_normalize_input user_input) g) = "valid") :
  runState
    (validate_and_normalize_input
       (normalized_move (evalState (validate_and_normalize_input user_input) g))) g
  = runState (validate_and_normalize_input user_input) g.
Proof.
  revert Hvalid. unfold evalState. rewrite !validate_run. cbv zeta. cbn [fst].
  destruct (PyStr.str_in (PyStr.lower (PyStr.strip user_input)) valid_moves) eqn:Hin;
    cbn [negb]; [| intros H; discriminate H].
  destruct ((PyStr.lower (PyStr.strip user_input) =? "bomb")%string
            && user_bomb_used g) eqn:Hb; [intros H; discriminate H |].
  intros _. cbn [normalized_move].
  apply str_in_spec in Hin. simpl in Hin.
  destruct Hin as [Hn | [Hn | [Hn | [Hn | []]]]]; rewrite <- Hn in *;
    cbn in Hb |- *; try rewrite Hb; reflexivity.
Qed.

Lemma validate_accepted_is_fixed_witness :
  runState (validate_and_normalize_input "paper") fresh_state
  = runState (validate_and_normalize_input " PAPER ") fresh_state.
Proof.
  apply (validate_accepted_is_fixed " PAPER " fresh_state). reflexivity.
Defined.

(** ** More on the state update *)

Lemma resolved_calls_cons (r : string * string) (rounds : list (string * string)) :
  resolved_calls (r :: rounds)
  = (fst r, snd r, resolve_round_outcome (fst r) (snd r)) :: resolved_calls rounds.
Proof. reflexivity. Qed.

(** One round scored by [resolve_round_outcome]. *)
Lemma round_applied_scores (u b : string) (g : GameState) :
  let g' := round_applied u b (resolve_round_outcome u b) g in
  user_score g <= user_score g'
  /\ bot_score g <= bot_score g'
  /\ (user_score g' - user_score g) + (bot_score g' - bot_score g) <= 1
  /\ round_number g' = round_number g + 1.
Proof.
  cbv zeta. cbn [round_applied user_score bot_score round_number].
  pose proof (resolve_deltas u b) as Hd. unfold deltas in Hd. simpl in Hd.
  destruct Hd as [Hd | [Hd | [Hd | []]]]; inversion Hd as [[Hu Hb]]; lia.
Qed.

(** Over rounds scored by [resolve_round_outcome], from any state: no score
    goes down, the two scores together rise by at most one per round, and
    the round counter rises by one per round. *)
Theorem resolved_rounds_scores (rounds : list (string * string)) (g : GameState) :
  let g' := execState (update_rounds (resolved_calls rounds)) g in
  user_score g <= user_score g'
  /\ bot_score g <= bot_score g'
  /\ (user_score g' - user_score g) + (bot_score g' - bot_score g)
     <= Z.of_nat (length rounds)
  /\ round_number g' = round_number g + Z.of_nat (length rounds).
Proof.
  revert g. induction rounds as [| [u b] rounds IH]; intros g.
  - cbn. lia.
  - cbv zeta. rewrite resolved_calls_cons, update_rounds_cons. cbn [fst snd].
    specialize (IH (round_applied u b (resolve_round_outcome u b) g)).
    pose proof (round_applied_scores u b g) as Hstep.
    cbv zeta in IH, Hstep. cbn [length]. rewrite Nat2Z.inj_succ. lia.
Qed.

(** [game_over] is one-way: over any calls of [update_game_state] it stays
    true once true, and after at least one call it is true whenever the
    round counter has reached 3. *)
Theorem game_over_one_way (calls : list (string * string * Outcome))
    (g : GameState) :
  let g' := execState (update_rounds calls) g in
  (game_over g = true -> game_over g' = true)
  /\ (calls <> [] -> 3 <= round_number g' -> game_over g' = true).
Proof.
  revert g. induction calls as [| [[u b] o] rest IH]; intros g.
  - cbn. split; [tauto | congruence].
  - cbv zeta. rewrite update_rounds_cons.
    destruct (IH (round_applied u b o g)) as [Hkeep Hreach]. split.
    + intros Hg. apply Hkeep. cbn. rewrite Hg. reflexivity.
    + intros _ H3. destruct rest as [| c rest'].
      * cbn in H3 |- *. apply Z.leb_le in H3. rewrite H3. apply orb_true_r.
      * apply Hreach; [discriminate | exact H3].
Qed.

Lemma game_over_one_way_witness :
  game_over (execState (update_rounds sample_calls) terminal_state) = true
  /\ game_over
       (execState (update_rounds sample_calls) (mkGameState 7 0 0 false false false))
     = true.
Proof.
  split.
  - apply (proj1 (game_over_one_way sample_calls terminal_state)). reflexivity.
  - apply (proj2 (game_over_one_way sample_calls
                    (mkGameState 7 0 0 false false false))).
    + discriminate.
    + vm_compute. discriminate.
Defined.

(** ** The fallback agent *)

(** One call of [Agent.run]: the response and the state it leaves. *)
Lemma agent_run_run (user_input : string) (draw : nat) (g : GameState) :
  runState (Agent.run user_input draw) g
  = let user_move := fst (round_moves user_input draw g) in
    let bot_move := snd (round_moves user_input draw g) in
    let outcome := resolve_round_outcome user_move bot_move in
    let g' := round_applied user_move bot_move outcome g in
    (Agent._format_round_response (round_number g') user_move bot_move outcome g',
     g').
Proof.
  unfold Agent.run, round_moves, evalState. cbv zeta. cbn [fst snd].
  rewrite runState_bind, validate_run. cbv beta iota zeta.
  rewrite runState_bind, get_bot_move_run. cbv beta iota zeta.
  rewrite runState_bind, update_game_state_run. reflexivity.
Qed.

Lemma agent_run_state (user_input : string) (draw : nat) (g : GameState) :
  execState (Agent.run user_input draw) g
  = round_applied (fst (round_moves user_input draw g))
      (snd (round_moves user_input draw g))
      (resolve_round_outcome (fst (round_moves user_input draw g))
         (snd (round_moves user_input draw g))) g.
Proof.
  unfold execState. rewrite agent_run_run. reflexivity.
Qed.

Lemma agent_runs_cons (user_input : string) (draw : nat)
    (rest : list (string * nat)) (g : GameState) :
  execState (agent_runs ((user_input, draw) :: rest)) g
  = execState (agent_runs rest) (execState (Agent.run user_input draw) g).
Proof.
  unfold execState. cbn [agent_runs]. rewrite runState_bind.
  destruct (runState (Agent.run user_input draw) g) as [out g1].
  rewrite runState_bind. cbn [snd].
  destruct (runState (agent_runs rest) g1). reflexivity.
Qed.

(** A sequence of [Agent.run] calls leaves the state of the same number of
    [update_game_state] calls, on the moves played and their outcomes. *)
Lemma agent_runs_state (stdin : list (string * nat)) (g : GameState) :
  execState (agent_runs stdin) g
  = execState (update_rounds (resolved_calls (moves_played stdin g))) g.
Proof.
  revert g. induction stdin as [| [i d] rest IH]; intros g; [reflexivity |].
  rewrite agent_runs_cons. cbn [moves_played].
  rewrite resolved_calls_cons, update_rounds_cons, IH.
  rewrite <- agent_run_state. reflexivity.
Qed.

Lemma moves_played_length (stdin : list (string * nat)) (g : GameState) :
  length (moves_played stdin g) = length stdin.
Proof.
  revert g. induction stdin as [| [i d] rest IH]; intros g; simpl; congruence.
Qed.

(** The scores and the round counter over a sequence of [Agent.run] calls. *)
Lemma agent_runs_scores (stdin : list (string * nat)) (g : GameState) :
  let g' := execState (agent_runs stdin) g in
  user_score g <= user_score g'
  /\ bot_score g <= bot_score g'
  /\ (user_score g' - user_score g) + (bot_score g' - bot_score g)
     <= Z.of_nat (length stdin)
  /\ round_number g' = round_number g + Z.of_nat (length stdin).
Proof.
  revert g. induction stdin as [| [i d] rest IH]; intros g.
  - cbn. lia.
  - cbv zeta. rewrite agent_runs_cons.
    specialize (IH (execState (Agent.run i d) g)). cbv zeta in IH.
    rewrite agent_run_state in IH |- *.
    pose proof (round_applied_scores (fst (round_moves i d g))
                  (snd (round_moves i d g)) g) as Hstep.
    cbv zeta in Hstep. cbn [length]. rewrite Nat2Z.inj_succ. lia.
Qed.

Lemma resolve_invalid_branch (bot_move : string) :
  resolve_round_outcome "invalid" bot_move
  = mkOutcome "invalid" "bot" "Invalid input. Round forfeited." 0 0.
Proof. reflexivity. Qed.

(** An input that fails validation costs the round and nothing else of the
    user's: [Agent.run] raises the round counter by one and leaves both
    scores and the user's bomb flag as they were.  The bot still draws, and
    its bomb flag is set when it drew the bomb. *)
Theorem agent_run_forfeit (user_input : string) (draw : nat) (g : GameState)
    (Hbad : normalized_move
              (evalState (validate_and_normalize_input user_input) g) = "invalid") :
  let g' := execState (Agent.run user_input draw) g in
  round_number g' = round_number g + 1
  /\ user_score g' = user_score g
  /\ bot_score g' = bot_score g
  /\ user_bomb_used g' = user_bomb_used g
  /\ (bot_bomb_used g' = true
      <-> bot_bomb_used g = true \/ evalState (get_bot_move draw) g = "bomb").
Proof.
  cbv zeta. rewrite agent_run_state. unfold round_moves. cbn [fst snd].
  rewrite Hbad, resolve_invalid_branch.
  cbn [round_applied round_number user_score bot_score user_bomb_used
       bot_bomb_used user_score_delta bot_score_delta].
  change ("invalid" =? "bomb")%string with false.
  rewrite orb_false_r.
  repeat (split; [lia || reflexivity |]).
  rewrite orb_true_iff, String.eqb_eq. reflexivity.
Qed.

Lemma agent_run_forfeit_witness :
  execState (Agent.run "lizard" 3) fresh_state
  = mkGameState 1 0 0 false true false
  /\ round_number (execState (Agent.run "lizard" 3) fresh_state) = 0 + 1.
Proof.
  split; [reflexivity |].
  apply (agent_run_forfeit "lizard" 3 fresh_state). reflexivity.
Defined.

(** The number of rounds in which the user, or the bot, plays bomb. *)
Lemma bomb_count_cons (m : string) (l : list string) :
  count_occ string_dec (m :: l) "bomb"
  = ((if (m =? "bomb")%string then 1 else 0) + count_occ string_dec l "bomb")%nat.
Proof.
  cbn [count_occ]. destruct (string_dec m "bomb") as [E | E].
  - apply String.eqb_eq in E. rewrite E. reflexivity.
  - apply String.eqb_neq in E. rewrite E. reflexivity.
Qed.

Lemma user_move_respects_flag (user_input : string) (draw : nat) (g : GameState) :
  user_bomb_used g = true -> (fst (round_moves user_input draw g) =? "bomb")%string = false.
Proof.
  intros H. unfold round_moves, evalState. cbn [fst].
  rewrite validate_run. cbv zeta. cbn [fst]. rewrite H, andb_true_r.
  destruct (negb (PyStr.str_in (PyStr.lower (PyStr.strip user_input)) valid_moves));
    [reflexivity |].
  destruct (PyStr.lower (PyStr.strip user_input) =? "bomb")%string eqn:E;
    [reflexivity | exact E].
Qed.

Lemma bot_move_respects_flag (user_input : string) (draw : nat) (g : GameState) :
  bot_bomb_used g = true -> (snd (round_moves user_input draw g) =? "bomb")%string = false.
Proof.
  intros H. apply String.eqb_neq. unfold round_moves, evalState. cbn [snd].
  rewrite get_bot_move_run, H. cbn [negb fst]. intros E.
  assert (Hin : In (random_choice draw ["rock"; "paper"; "scissors"])
                   ["rock"; "paper"; "scissors"])
    by (apply random_choice_In; discriminate).
  rewrite E in Hin. simpl in Hin.
  destruct Hin as [Hin | [Hin | [Hin | []]]]; discriminate Hin.
Qed.

(** Each side plays bomb at most once: over any sequence of [Agent.run]
    calls from any state, at most one round has the user move bomb and at
    most one has the bot move bomb, and none has it for a side whose bomb
    flag is set at the start. *)
Theorem bomb_at_most_once (stdin : list (string * nat)) (g : GameState) :
  let users := map fst (moves_played stdin g) in
  let bots := map snd (moves_played stdin g) in
  (count_occ string_dec users "bomb" <= 1)%nat
  /\ (count_occ string_dec bots "bomb" <= 1)%nat
  /\ (user_bomb_used g = true -> count_occ string_dec users "bomb" = 0%nat)
  /\ (bot_bomb_used g = true -> count_occ string_dec bots "bomb" = 0%nat).
Proof.
  cbv zeta. revert g. induction stdin as [| [i d] rest IH]; intros g.
  - cbn. repeat split; lia.
  - cbn [moves_played map]. rewrite !bomb_count_cons.
    specialize (IH (execState (Agent.run i d) g)).
    destruct IH as [Hu [Hb [Hu0 Hb0]]].
    set (g1 := execState (Agent.run i d) g) in *.
    assert (Fu1 : user_bomb_used g1
                  = user_bomb_used g || (fst (round_moves i d g) =? "bomb")%string)
      by (unfold g1; rewrite agent_run_state; reflexivity).
    assert (Fb1 : bot_bomb_used g1
                  = bot_bomb_used g || (snd (round_moves i d g) =? "bomb")%string)
      by (unfold g1; rewrite agent_run_state; reflexivity).
    rewrite Fu1 in Hu0. rewrite Fb1 in Hb0. clearbody g1. clear Fu1 Fb1.
    pose proof (user_move_respects_flag i d g) as Fu.
    pose proof (bot_move_respects_flag i d g) as Fb.
    remember (fst (round_moves i d g) =? "bomb")%string as eu eqn:Eu in *.
    remember (snd (round_moves i d g) =? "bomb")%string as eb eqn:Eb in *.
    clear Eu Eb.
    split; [| split; [| split]].
    + destruct eu; [rewrite Hu0 by apply orb_true_r |]; lia.
    + destruct eb; [rewrite Hb0 by apply orb_true_r |]; lia.
    + intros Hg. rewrite (Fu Hg), Hu0; [reflexivity |].
      rewrite Hg. reflexivity.
    + intros Hg. rewrite (Fb Hg), Hb0; [reflexivity |].
      rewrite Hg. reflexivity.
Qed.

Lemma bomb_at_most_once_witness :
  count_occ string_dec
    (map fst (moves_played [("bomb", 0%nat); ("BOMB", 1%nat)]
                (mkGameState 1 0 1 true false false)))
    "bomb" = 0%nat.
Proof.
  apply (proj1 (proj2 (proj2
           (bomb_at_most_once [("bomb", 0%nat); ("BOMB", 1%nat)]
              (mkGameState 1 0 1 true false false))))).
  reflexivity.
Defined.

(** ** The final result and the game loop *)

(** The verdict of [format_final_result] follows the scores: user wins
    exactly when the user's score is the higher, bot wins exactly when the
    bot's is, and draw exactly when they are equal. *)
Theorem format_final_result_verdict (st : GameState) :
  (prefix "Game over. User wins!" (format_final_result st) = true
   <-> bot_score st < user_score st)
  /\ (prefix "Game over. Bot wins!" (format_final_result st) = true
      <-> user_score st < bot_score st)
  /\ (prefix "Game over. Draw!" (format_final_result st) = true
      <-> user_score st = bot_score st).
Proof.
  unfold format_final_result.
  destruct (Z.gtb_spec (user_score st) (bot_score st)) as [Hgt | Hle];
    [| destruct (Z.ltb_spec (user_score st) (bot_score st)) as [Hlt | Hge]];
    cbn [append prefix];
    repeat match goal with
           | |- context [ascii_dec ?a ?b] =>
               let x := eval vm_compute in (ascii_dec a b) in
               change (ascii_dec a b) with x; cbv iota
           end;
    (split; [| split]); split; intros H;
    solve [reflexivity | discriminate H | lia].
Qed.

Lemma game_loop_over (stdin : list (string * nat)) (g : GameState) :
  game_over g = true ->
  runState (game_loop stdin) g = ([Print (format_final_result g)], Returned, g).
Proof.
  intros Hg. destruct stdin as [| [i d] rest]; cbn [game_loop];
    rewrite runState_bind; unfold get_current_state;
    cbn [get MonadState_state runState]; rewrite Hg; reflexivity.
Qed.

Lemma game_loop_eof (g : GameState) :
  game_over g = false ->
  runState (game_loop []) g = ([prompt_of g], EOFError, g).
Proof.
  intros Hg. cbn [game_loop]. rewrite runState_bind. unfold get_current_state.
  cbn [get MonadState_state runState]. rewrite Hg. reflexivity.
Qed.

Lemma game_loop_step (user_input : string) (draw : nat)
    (rest : list (string * nat)) (g : GameState) :
  game_over g = false ->
  runState (game_loop ((user_input, draw) :: rest)) g
  = let output := evalState (Agent.run user_input draw) g in
    let g1 := execState (Agent.run user_input draw) g in
    let shown := [prompt_of g; Print output; Print ""] in
    if game_over g1 then
      ((shown ++ [Print (format_final_result g1)])%list, Returned, g1)
    else
      ((shown ++ fst (evalState (game_loop rest) g1))%list,
       snd (evalState (game_loop rest) g1),
       execState (game_loop rest) g1).
Proof.
  intros Hg. cbn [game_loop]. rewrite runState_bind. unfold get_current_state.
  cbn [get MonadState_state runState]. rewrite Hg.
  rewrite runState_bind. unfold evalState, execState.
  destruct (runState (Agent.run user_input draw) g) as [out g1].
  cbv zeta. cbn [fst snd]. rewrite runState_bind.
  cbn [get MonadState_state runState].
  destruct (game_over g1); [reflexivity |].
  rewrite runState_bind.
  destruct (runState (game_loop rest) g1) as [[ev ex] g2]. reflexivity.
Qed.

(** The loop from a state whose [game_over] follows its round counter: it
    runs the agent on the lines it needs to reach round 3, as far as the
    input goes, and ends on the final result or on the prompt that met the
    end of the input. *)
Lemma game_loop_run (stdin : list (string * nat)) (g : GameState) :
  game_over g = (3 <=? round_number g) ->
  let k := Z.to_nat (3 - round_number g) in
  let r := runState (game_loop stdin) g in
  snd r = execState (agent_runs (firstn k stdin)) g
  /\ snd (fst r) = (if (k <=? length stdin)%nat then Returned else EOFError)
  /\ exists shown,
       fst (fst r)
       = (shown ++ [if (k <=? length stdin)%nat
                    then Print (format_final_result (snd r))
                    else prompt_of (snd r)])%list.
Proof.
  revert g. induction stdin as [| [i d] rest IH]; intros g Hinv; cbv zeta.
  - destruct (Z.leb_spec 3 (round_number g)) as [H3 | H3].
    + rewrite (game_loop_over [] g Hinv).
      replace (Z.to_nat (3 - round_number g)) with 0%nat by lia.
      cbn. split; [reflexivity | split; [reflexivity | exists []; reflexivity]].
    + rewrite (game_loop_eof g Hinv).
      replace (Z.to_nat (3 - round_number g))
        with (S (Z.to_nat (3 - (round_number g + 1)))) by lia.
      cbn. split; [reflexivity | split; [reflexivity | exists []; reflexivity]].
  - destruct (Z.leb_spec 3 (round_number g)) as [H3 | H3].
    + rewrite (game_loop_over _ g Hinv).
      replace (Z.to_nat (3 - round_number g)) with 0%nat by lia.
      cbn. split; [reflexivity | split; [reflexivity | exists []; reflexivity]].
    + rewrite (game_loop_step i d rest g Hinv). cbv zeta.
      replace (Z.to_nat (3 - round_number g))
        with (S (Z.to_nat (3 - (round_number g + 1)))) by lia.
      cbn [firstn]. rewrite agent_runs_cons.
      set (g1 := execState (Agent.run i d) g).
      assert (Hr1 : round_number g1 = round_number g + 1)
        by (unfold g1; rewrite agent_run_state; reflexivity).
      assert (Hinv1 : game_over g1 = (3 <=? round_number g1)).
      { rewrite Hr1. unfold g1. rewrite agent_run_state.
        cbn [round_applied game_over]. rewrite Hinv. reflexivity. }
      rewrite <- Hr1.
      destruct (game_over g1) eqn:Hg1.
      * symmetry in Hinv1. apply Z.leb_le in Hinv1.
        replace (Z.to_nat (3 - round_number g1)) with 0%nat by lia.
        cbn [firstn fst snd length Nat.leb].
        split; [reflexivity | split; [reflexivity |]].
        exists [prompt_of g; Print (evalState (Agent.run i d) g); Print ""].
        reflexivity.
      * destruct (IH g1) as [Hs [He [shown Hev]]]; [congruence |].
        unfold execState, evalState in *. cbn [fst snd length Nat.leb].
        split; [exact Hs | split; [exact He |]].
        exists ([prompt_of g; Print (fst (runState (Agent.run i d) g)); Print ""]
                  ++ shown)%list.
        rewrite Hev, app_assoc. reflexivity.
Qed.

(** [main] starts from a fresh state whatever the state was, runs the agent
    on the first three input lines and on no more, and returns; with fewer
    than three lines it runs the agent on all of them and ends in EOFError.
    At the end the round counter is the number of rounds played, [game_over]
    tells whether three were played, no score is negative and the scores
    together do not exceed the round counter. *)
Theorem main_plays_three_rounds (stdin : list (string * nat)) (g : GameState) :
  let r := runState (main stdin) g in
  snd r = execState (agent_runs (firstn 3 stdin)) fresh_state
  /\ snd (fst r) = (if (3 <=? length stdin)%nat then Returned else EOFError)
  /\ round_number (snd r) = Z.of_nat (Nat.min 3 (length stdin))
  /\ game_over (snd r) = (3 <=? length stdin)%nat
  /\ 0 <= user_score (snd r)
  /\ 0 <= bot_score (snd r)
  /\ user_score (snd r) + bot_score (snd r) <= round_number (snd r).
Proof.
  cbv zeta. unfold main. rewrite runState_bind.
  cbn [put MonadState_state runState]. rewrite runState_bind.
  destruct (game_loop_run stdin fresh_state eq_refl) as [Hs [He _]].
  change (Z.to_nat (3 - round_number fresh_state)) with 3%nat in Hs, He.
  destruct (runState (game_loop stdin) fresh_state) as [[ev ex] g'] eqn:Hrun.
  cbn [fst snd] in *. subst g' ex.
  split; [reflexivity | split; [reflexivity |]].
  pose proof (agent_runs_scores (firstn 3 stdin) fresh_state) as Hsc.
  assert (Hgo : game_over (execState (agent_runs (firstn 3 stdin)) fresh_state)
                = (3 <=? round_number
                           (execState (agent_runs (firstn 3 stdin)) fresh_state))).
  { rewrite agent_runs_state.
    apply (update_rounds_counter
             (resolved_calls (moves_played (firstn 3 stdin) fresh_state))
             fresh_state eq_refl). }
  cbv zeta in Hsc.
  set (gf := execState (agent_runs (firstn 3 stdin)) fresh_state) in *.
  rewrite length_firstn in Hsc.
  change (user_score fresh_state) with 0 in Hsc.
  change (bot_score fresh_state) with 0 in Hsc.
  change (round_number fresh_state) with 0 in Hsc.
  destruct Hsc as [Hu [Hb [Hsum Hrn]]].
  cbn [ret Monad_state runState snd].
  split; [lia |]. split; [| lia].
  rewrite Hgo, Hrn.
  destruct (Nat.leb_spec 3 (length stdin)) as [Hl | Hl].
  - apply Z.leb_le. lia.
  - apply Z.leb_gt. lia.
Qed.

(** The last thing [main] writes: the final result of the state it leaves
    when it returns, and the prompt of the next round when the input ended
    before round 3. *)
Theorem main_last_event (stdin : list (string * nat)) (g : GameState) :
  let r := runState (main stdin) g in
  exists shown,
    fst (fst r)
    = (Banner :: shown
         ++ [if (3 <=? length stdin)%nat
             then Print (format_final_result (snd r))
             else prompt_of (snd r)])%list.
Proof.
  cbv zeta. unfold main. rewrite runState_bind.
  cbn [put MonadState_state runState]. rewrite runState_bind.
  destruct (game_loop_run stdin fresh_state eq_refl) as [_ [_ [shown Hev]]].
  change (Z.to_nat (3 - round_number fresh_state)) with 3%nat in Hev.
  destruct (runState (game_loop stdin) fresh_state) as [[ev ex] g'].
  cbn [fst snd] in *. exists shown. rewrite Hev. reflexivity.
Qed.
